(** * GattUuid: creation of properly formatted GATT UUIDs

    A shallow embedding of [src/GattUuid.h] (Gobbledegook) and the
    verification of its specification.

    - a [std::string] is a [list ascii] (type [str]);
    - unsigned and signed machine integers are [Z] with the wrap-around
      written out ([wrap], [to_int]);
    - the two [std::string] members that can throw [std::out_of_range]
      ([insert] and [substr]) return in the error monad [res];
    - [snprintf] is a small interpreter for the two conversions the header
      uses (literal text and [%0Nx]), truncating at the buffer size. *)

From Stdlib Require Import ZArith List Ascii String Bool Lia.
Import ListNotations.

Local Open Scope Z_scope.

(** ** Strings *)

Definition str := list ascii.

(** A string literal of the source. *)
Definition lit (s : string) : str := list_ascii_of_string s.

(** ** Exceptions *)

Inductive exn : Type := out_of_range.

Inductive res (A : Type) : Type :=
| Ok (a : A)
| Throw (e : exn).

Arguments Ok {A} a.
Arguments Throw {A} e.

Definition ret {A} (a : A) : res A := Ok a.

Definition bind {A B} (m : res A) (k : A -> res B) : res B :=
  match m with
  | Ok a => k a
  | Throw e => Throw e
  end.

Notation "x <- m ;; k" := (bind m (fun x => k))
  (at level 61, m at next level, right associativity).

(** ** Machine integers *)

(** An unsigned [w]-bit value: conversion to [uintw_t] wraps modulo [2^w]. *)
Definition wrap (w : Z) (z : Z) : Z := z mod 2 ^ w.

(** Conversion to [int] (32 bits, two's complement): a value out of range
    is reduced modulo [2^32], as the compilers of the project do and as the
    language requires since C++20. *)
Definition to_int (z : Z) : Z := (z + 2 ^ 31) mod 2 ^ 32 - 2 ^ 31.

(** ** The parts of the C and C++ libraries the header uses *)

Module Std.

(** [std::string::length], a [size_t]. *)
Definition length (s : str) : Z := Z.of_nat (List.length s).

(** [std::string::empty]. *)
Definition empty (s : str) : bool :=
  match s with
  | [] => true
  | _ :: _ => false
  end.

(** Multiplication in [size_t] (64 bits on the LP64 targets of the
    project). *)
Definition size_t_mul (a b : Z) : Z := wrap 64 (a * b).

(** [s.insert(pos, n, c)]: throws when [pos > s.size()]. *)
Definition insert (pos n : nat) (c : ascii) (s : str) : res str :=
  if (List.length s <? pos)%nat then Throw out_of_range
  else Ok (firstn pos s ++ repeat c n ++ skipn pos s).

(** [s.substr(pos, len)]: throws when [pos > s.size()], and is cut at the
    end of the string otherwise. *)
Definition substr (pos len : nat) (s : str) : res str :=
  if (List.length s <? pos)%nat then Throw out_of_range
  else Ok (firstn len (skipn pos s)).

(** Comparison of two [char]s by their codes. *)
Definition char_le (a b : ascii) : bool := (N_of_ascii a <=? N_of_ascii b)%N.

(** [::tolower] in the C locale. *)
Definition tolower (c : ascii) : ascii :=
  if char_le "A" c && char_le c "Z"
  then ascii_of_N (N_of_ascii c + 32)
  else c.

(** [std::transform(b, e, b, f)] in place. *)
Definition transform (f : ascii -> ascii) (s : str) : str := map f s.

(** [s.erase(std::remove_if(b, e, p), e)]: the characters on which [p]
    is false, in their order. *)
Definition erase_remove_if (p : ascii -> bool) (s : str) : str :=
  filter (fun c => negb (p c)) s.

(** The lowercase hex digit of a value below 16. *)
Definition hex_digit (d : Z) : ascii :=
  nth (Z.to_nat d) (lit "0123456789abcdef") "0"%char.

(** The [n] low hex digits of [v], most significant first. *)
Fixpoint hex_fixed (n : nat) (v : Z) : str :=
  match n with
  | O => []
  | S k => hex_fixed k (v / 16) ++ [hex_digit (v mod 16)]
  end.

(** The number of hex digits [%x] prints for [v]. *)
Definition hex_len (v : Z) : nat :=
  if v <=? 0 then 1%nat else (Z.to_nat (Z.log2 v / 4) + 1)%nat.

(** [%0wx] applied to an [unsigned int]: at least [w] digits, padded with
    zeros, never cut. *)
Definition fmt_0x (w : nat) (v : Z) : str :=
  hex_fixed (Nat.max w (hex_len (wrap 32 v))) (wrap 32 v).

(** The pieces of a format string. *)
Inductive fmt_item : Type :=
| FLit (s : str)
| FHex0 (w : nat).

Fixpoint sprintf (f : list fmt_item) (args : list Z) : str :=
  match f with
  | [] => []
  | FLit s :: f' => s ++ sprintf f' args
  | FHex0 w :: f' =>
      match args with
      | [] => []
      | a :: args' => fmt_0x w a ++ sprintf f' args'
      end
  end.

(** [snprintf(buf, size, f, args...)]: the buffer receives at most
    [size - 1] characters and the terminator. *)
Definition snprintf (size : nat) (f : list fmt_item) (args : list Z) : str :=
  firstn (size - 1) (sprintf f args).

(** [std::string(const char * )]: the characters before the first NUL. *)
Fixpoint of_c_str (p : list ascii) : str :=
  match p with
  | [] => []
  | c :: p' => if (N_of_ascii c =? 0)%N then [] else c :: of_c_str p'
  end.

End Std.

(** ** struct GattUuid *)

Definition kGattStandardUuidPart1Prefix : str := lit "0000".
Definition kGattStandardUuidSuffix : str := lit "-0000-1000-8000-00805f9b34fb".

Record GattUuid : Type := mkGattUuid {
  uuid : str;
  bitCount : Z
}.

(** The predicate handed to [remove_if] in [clean]. *)
Definition not_hex (c : ascii) : bool :=
  negb ((Std.char_le "0" c && Std.char_le c "9")
        || (Std.char_le "a" c && Std.char_le c "f")
        || (Std.char_le "A" c && Std.char_le c "F")).

(** [static std::string clean(const std::string &strUuid)] *)
Definition clean (strUuid : str) : str :=
  if Std.empty strUuid then strUuid
  else
    let cleanStr := strUuid in
    let cleanStr := Std.transform Std.tolower cleanStr in
    let cleanStr := Std.erase_remove_if not_hex cleanStr in
    cleanStr.

(** [static std::string dashify(const std::string &str)] *)
Definition dashify (s : str) : res str :=
  let dashed := clean s in
  dashed <- (if Std.length dashed >? 8 then Std.insert 8 1 "-" dashed else ret dashed) ;;
  dashed <- (if Std.length dashed >? 13 then Std.insert 13 1 "-" dashed else ret dashed) ;;
  dashed <- (if Std.length dashed >? 18 then Std.insert 18 1 "-" dashed else ret dashed) ;;
  dashed <- (if Std.length dashed >? 23 then Std.insert 23 1 "-" dashed else ret dashed) ;;
  ret dashed.

(** [GattUuid(std::string strUuid)] *)
Definition GattUuid_string (strUuid : str) : res GattUuid :=
  let strUuid := clean strUuid in
  let bitCount := to_int (Std.size_t_mul (Std.length strUuid) 4) in
  let '(strUuid, bitCount) :=
    if bitCount =? 16 then
      (kGattStandardUuidPart1Prefix ++ strUuid ++ kGattStandardUuidSuffix, bitCount)
    else if bitCount =? 32 then
      (strUuid ++ kGattStandardUuidSuffix, bitCount)
    else if negb (bitCount =? 128) then
      ([], 0)
    else
      (strUuid, bitCount) in
  u <- dashify strUuid ;;
  ret {| uuid := u; bitCount := bitCount |}.

(** [GattUuid(const char *strUuid)] *)
Definition GattUuid_cstr (strUuid : list ascii) : res GattUuid :=
  GattUuid_string (Std.of_c_str strUuid).

(** [GattUuid(const uint16_t part)] *)
Definition GattUuid_u16 (part : Z) : GattUuid :=
  let part := wrap 16 part in
  let bitCount := 16 in
  let partStr := Std.snprintf 5 [Std.FHex0 4] [part] in
  {| uuid := kGattStandardUuidPart1Prefix ++ partStr ++ kGattStandardUuidSuffix;
     bitCount := bitCount |}.

(** [GattUuid(const uint32_t part)] *)
Definition GattUuid_u32 (part : Z) : GattUuid :=
  let part := wrap 32 part in
  let bitCount := 32 in
  let partStr := Std.snprintf 9 [Std.FHex0 4] [part] in
  {| uuid := partStr ++ kGattStandardUuidSuffix;
     bitCount := bitCount |}.

(** [GattUuid(const uint32_t part1, const uint16_t part2, const uint16_t part3,
    const uint16_t part4, const uint64_t part5)] *)
Definition GattUuid_parts (part1 part2 part3 part4 part5 : Z) : GattUuid :=
  let part1 := wrap 32 part1 in
  let part2 := wrap 16 part2 in
  let part3 := wrap 16 part3 in
  let part4 := wrap 16 part4 in
  let part5 := wrap 64 part5 in
  let bitCount := 128 in
  let part5a := wrap 32 (Z.land (Z.shiftr part5 4) 0xffffffff) in
  let part5b := wrap 32 (Z.land part5 0xffff) in
  let partsStr :=
    Std.snprintf 37
      [Std.FHex0 8; Std.FLit (lit "-"); Std.FHex0 4; Std.FLit (lit "-");
       Std.FHex0 4; Std.FLit (lit "-"); Std.FHex0 4; Std.FLit (lit "-");
       Std.FHex0 8; Std.FHex0 4]
      [part1; part2; part3; part4; part5a; part5b] in
  {| uuid := partsStr; bitCount := bitCount |}.

(** [int getBitCount() const] *)
Definition getBitCount (g : GattUuid) : Z := bitCount g.

(** [std::string toString16() const] *)
Definition toString16 (g : GattUuid) : res str :=
  if Std.empty (uuid g) then ret (uuid g)
  else Std.substr 4 4 (uuid g).

(** [std::string toString32() const] *)
Definition toString32 (g : GattUuid) : res str :=
  if Std.empty (uuid g) then ret (uuid g)
  else Std.substr 0 8 (uuid g).

(** [std::string toString128() const] *)
Definition toString128 (g : GattUuid) : res str := ret (uuid g).

(** [std::string toString() const] *)
Definition toString (g : GattUuid) : res str :=
  if bitCount g =? 16 then toString16 g
  else if bitCount g =? 32 then toString32 g
  else toString128 g.


(** ** Notions the specification is stated with *)

(** A lowercase hex digit. *)
Definition is_lower_hex (c : ascii) : bool :=
  (Std.char_le "0" c && Std.char_le c "9")
  || (Std.char_le "a" c && Std.char_le c "f").

(** The value of a hex digit. *)
Definition digit_val (c : ascii) : Z :=
  if Std.char_le "0" c && Std.char_le c "9" then
    Z.of_N (N_of_ascii c) - 48
  else if Std.char_le "a" c && Std.char_le c "f" then
    Z.of_N (N_of_ascii c) - 97 + 10
  else if Std.char_le "A" c && Std.char_le c "F" then
    Z.of_N (N_of_ascii c) - 65 + 10
  else 0.

(** The integer a string of hex digits denotes, most significant digit
    first. *)
Definition hex_value (h : str) : Z :=
  fold_left (fun acc c => 16 * acc + digit_val c) h 0.

(** The canonical form [xxxxxxxx-xxxx-xxxx-xxxx-xxxxxxxxxxxx]: 36
    characters, ['-'] at indices 8, 13, 18 and 23, lowercase hex digits
    everywhere else. *)
Fixpoint canonical_from (i : nat) (s : str) : bool :=
  match s with
  | [] => true
  | c :: s' =>
      (if existsb (Nat.eqb i) [8; 13; 18; 23]%nat
       then Ascii.eqb c "-" else is_lower_hex c)
      && canonical_from (S i) s'
  end.

Definition well_formed (s : str) : bool :=
  (List.length s =? 36)%nat && canonical_from 0 s.

(** The dashifier in the words of the specification: starting from the
    sanitized string, a separator goes in at the offsets 8, 13, 18 and 23
    of the string as modified so far, and an offset the string does not
    reach is skipped. *)
Definition insert_if_room (dashed : str) (off : nat) : str :=
  if (off <? List.length dashed)%nat
  then firstn off dashed ++ "-"%char :: skipn off dashed
  else dashed.

Definition dashify_spec (s : str) : str :=
  fold_left insert_if_room [8; 13; 18; 23]%nat (clean s).

(** The number of separators in a string. *)
Definition count_dash (s : str) : nat :=
  List.length (filter (Ascii.eqb "-") s).

(** The E block of [AAAAAAAA-BBBB-CCCC-DDDD-EEEEEEEEEEEE]. *)
Definition block_E (s : str) : str := skipn 24 s.

(** A string of lowercase hex digits. *)
Definition lower_hex_str (s : str) : Prop :=
  Forall (fun c => is_lower_hex c = true) s.

(** A hex digit of either case. *)
Definition is_hex_char (c : ascii) : bool :=
  (Std.char_le "0" c && Std.char_le c "9")
  || (Std.char_le "a" c && Std.char_le c "f")
  || (Std.char_le "A" c && Std.char_le c "F").


(** The identifiers that the five constructors can build. *)
Inductive constructed : GattUuid -> Prop :=
| from_string (s : str) (g : GattUuid) :
    GattUuid_string s = Ok g -> constructed g
| from_cstr (p : list ascii) (g : GattUuid) :
    GattUuid_cstr p = Ok g -> constructed g
| from_u16 (part : Z) : constructed (GattUuid_u16 part)
| from_u32 (part : Z) : constructed (GattUuid_u32 part)
| from_parts (part1 part2 part3 part4 part5 : Z) :
    constructed (GattUuid_parts part1 part2 part3 part4 part5).

(** ** Proof steps used more than once *)

(** Case analysis over the 256 characters. *)
Ltac all_chars c :=
  destruct c as [[] [] [] [] [] [] [] []].

(** Split a hypothesis on the digits of a string into one per digit. *)
Ltac split_hex :=
  repeat match goal with
         | H : lower_hex_str (_ :: _) |- _ => inversion H; clear H; subst
         | H : Forall _ (_ :: _) |- _ => inversion H; clear H; subst
         end.

(** Name the characters of a string whose length [H] fixes. *)
Ltac fixed_length l H :=
  repeat (destruct l as [| ? l]; [discriminate H |]);
  destruct l; [clear H | discriminate H].

(** * Characters *)

Lemma kept_is_lower_hex (c : ascii) :
  not_hex (Std.tolower c) = false -> is_lower_hex (Std.tolower c) = true.
Proof. all_chars c; vm_compute; congruence. Qed.

Lemma lower_hex_tolower (c : ascii) :
  is_lower_hex c = true -> Std.tolower c = c.
Proof. all_chars c; vm_compute; congruence. Qed.

Lemma lower_hex_kept (c : ascii) :
  is_lower_hex c = true -> not_hex c = false.
Proof. all_chars c; vm_compute; congruence. Qed.

Lemma digit_val_range (c : ascii) : 0 <= digit_val c < 16.
Proof. all_chars c; vm_compute; split; congruence. Qed.

Lemma hex_digit_digit_val (c : ascii) :
  is_lower_hex c = true -> Std.hex_digit (digit_val c) = c.
Proof. all_chars c; vm_compute; congruence. Qed.

Lemma hex_digit_lower (d : Z) :
  0 <= d < 16 -> is_lower_hex (Std.hex_digit d) = true.
Proof.
  intros H.
  assert (E : d = 0 \/ d = 1 \/ d = 2 \/ d = 3 \/ d = 4 \/ d = 5 \/ d = 6
              \/ d = 7 \/ d = 8 \/ d = 9 \/ d = 10 \/ d = 11 \/ d = 12
              \/ d = 13 \/ d = 14 \/ d = 15) by lia.
  repeat (destruct E as [-> | E]; [reflexivity |]).
  subst d; reflexivity.
Qed.

(** * The sanitizer *)

Lemma clean_eq (s : str) :
  clean s = filter (fun c => negb (not_hex c)) (map Std.tolower s).
Proof. destruct s; reflexivity. Qed.

Lemma clean_app (a b : str) : clean (a ++ b) = clean a ++ clean b.
Proof. rewrite !clean_eq, map_app, filter_app; reflexivity. Qed.

Lemma clean_cons (c : ascii) (s : str) :
  clean (c :: s) = clean [c] ++ clean s.
Proof. exact (clean_app [c] s). Qed.

Lemma clean_lower_hex (s : str) : lower_hex_str (clean s).
Proof.
  rewrite clean_eq. induction s as [| c s IH]; simpl.
  - constructor.
  - destruct (not_hex (Std.tolower c)) eqn:E; simpl; auto.
    constructor; auto using kept_is_lower_hex.
Qed.

Lemma clean_fixed (s : str) : lower_hex_str s -> clean s = s.
Proof.
  rewrite clean_eq. induction 1 as [| c s Hc _ IH]; simpl; auto.
  rewrite (lower_hex_tolower c Hc), (lower_hex_kept c Hc); simpl.
  now rewrite IH.
Qed.

Lemma clean_idempotent (s : str) : clean (clean s) = clean s.
Proof. apply clean_fixed, clean_lower_hex. Qed.

Lemma clean_length (s : str) : (List.length (clean s) <= List.length s)%nat.
Proof.
  rewrite clean_eq.
  etransitivity; [apply filter_length_le | now rewrite length_map].
Qed.

(** * The dashifier *)

Lemma dash_step (dashed : str) (off : nat) (offz : Z) :
  offz = Z.of_nat off ->
  (if Std.length dashed >? offz then Std.insert off 1 "-" dashed else ret dashed)
  = Ok (insert_if_room dashed off).
Proof.
  intros ->. unfold Std.length, Std.insert, insert_if_room, ret.
  destruct (Z.gtb_spec (Z.of_nat (List.length dashed)) (Z.of_nat off)) as [H | H].
  - assert (L : (off < List.length dashed)%nat) by lia.
    destruct (Nat.ltb_spec (List.length dashed) off); [lia |].
    destruct (Nat.ltb_spec off (List.length dashed)); [| lia].
    reflexivity.
  - destruct (Nat.ltb_spec off (List.length dashed)); [lia |].
    reflexivity.
Qed.

Lemma dashify_refines (s : str) : dashify s = Ok (dashify_spec s).
Proof.
  unfold dashify, dashify_spec; simpl fold_left.
  rewrite (dash_step _ 8%nat 8 eq_refl); simpl bind.
  rewrite (dash_step _ 13%nat 13 eq_refl); simpl bind.
  rewrite (dash_step _ 18%nat 18 eq_refl); simpl bind.
  rewrite (dash_step _ 23%nat 23 eq_refl); simpl bind.
  reflexivity.
Qed.

Lemma clean_insert_if_room (dashed : str) (off : nat) :
  clean (insert_if_room dashed off) = clean dashed.
Proof.
  unfold insert_if_room.
  destruct (off <? List.length dashed)%nat; [| reflexivity].
  rewrite clean_app, clean_cons.
  change (clean ["-"%char]) with (@nil ascii); simpl.
  now rewrite <- clean_app, firstn_skipn.
Qed.

Lemma clean_dashify_spec (s : str) : clean (dashify_spec s) = clean s.
Proof.
  unfold dashify_spec; simpl fold_left.
  now rewrite !clean_insert_if_room, clean_idempotent.
Qed.

Lemma insert_if_room_length (dashed : str) (off : nat) :
  (List.length dashed <= List.length (insert_if_room dashed off))%nat.
Proof.
  unfold insert_if_room.
  destruct (off <? List.length dashed)%nat; [| lia].
  rewrite <- (firstn_skipn off dashed) at 1.
  rewrite !length_app; simpl; lia.
Qed.

(** The example transforms listed above [dashify] in the header. *)
Example dashify_examples :
  dashify (lit "0000180A-0000-1000-8000-00805f9b34fb")
    = Ok (lit "0000180a-0000-1000-8000-00805f9b34fb") /\
  dashify (lit "0000180A00001000800000805f9b34fb")
    = Ok (lit "0000180a-0000-1000-8000-00805f9b34fb") /\
  dashify (lit "0000180A/0000.1000_zzzzzz_8000+00805f9b34fb")
    = Ok (lit "0000180a-0000-1000-8000-00805f9b34fb") /\
  dashify (lit "0000180A") = Ok (lit "0000180a") /\
  dashify (lit "0000180A.0000.100") = Ok (lit "0000180a-0000-100") /\
  dashify (lit "rqzp") = Ok (lit "").
Proof. repeat split. Qed.

(** * Hex formatting *)

Lemma wrap_small (w v : Z) : 0 <= v < 2 ^ w -> wrap w v = v.
Proof. intros H; unfold wrap; now apply Z.mod_small. Qed.

Lemma wrap_range (w v : Z) : 0 <= w -> 0 <= wrap w v < 2 ^ w.
Proof. intros H; unfold wrap; apply Z.mod_pos_bound; now apply Z.pow_pos_nonneg. Qed.

Lemma hex_fixed_length (n : nat) (v : Z) : List.length (Std.hex_fixed n v) = n.
Proof.
  revert v; induction n as [| n IH]; intros v; simpl; auto.
  rewrite length_app, IH; simpl; lia.
Qed.

Lemma hex_fixed_lower (n : nat) (v : Z) : lower_hex_str (Std.hex_fixed n v).
Proof.
  revert v; induction n as [| n IH]; intros v; simpl.
  - constructor.
  - apply Forall_app; split; [apply IH |].
    constructor; [| constructor].
    apply hex_digit_lower, Z.mod_pos_bound; lia.
Qed.

Lemma hex_value_snoc (l : str) (c : ascii) :
  hex_value (l ++ [c]) = 16 * hex_value l + digit_val c.
Proof. unfold hex_value; now rewrite fold_left_app. Qed.

Lemma hex_value_range (l : str) :
  0 <= hex_value l < 16 ^ Z.of_nat (List.length l).
Proof.
  induction l as [| c l IH] using rev_ind.
  - simpl; unfold hex_value; simpl; lia.
  - rewrite hex_value_snoc, length_app; simpl List.length.
    replace (Z.of_nat (List.length l + 1)) with (Z.succ (Z.of_nat (List.length l))) by lia.
    rewrite Z.pow_succ_r by lia.
    pose proof (digit_val_range c); lia.
Qed.

(** Printing the value of a string of lowercase hex digits on as many
    digits gives the string back. *)
Lemma hex_fixed_hex_value (l : str) :
  lower_hex_str l -> Std.hex_fixed (List.length l) (hex_value l) = l.
Proof.
  induction l as [| c l IH] using rev_ind; intros H.
  - reflexivity.
  - apply Forall_app in H as [Hl Hc].
    rewrite length_app, Nat.add_comm; simpl.
    rewrite hex_value_snoc.
    pose proof (digit_val_range c) as Hd.
    replace ((16 * hex_value l + digit_val c) / 16) with (hex_value l)
      by (apply Z.div_unique with (r := digit_val c); lia).
    replace ((16 * hex_value l + digit_val c) mod 16) with (digit_val c)
      by (apply Z.mod_unique with (q := hex_value l); lia).
    rewrite (IH Hl). f_equal. f_equal.
    apply hex_digit_digit_val. now inversion Hc.
Qed.

Lemma hex_len_le (n : nat) (v : Z) :
  (1 <= n)%nat -> v < 16 ^ Z.of_nat n -> (Std.hex_len v <= n)%nat.
Proof.
  intros Hn Hv. unfold Std.hex_len.
  destruct (Z.leb_spec v 0) as [| Hpos]; [lia |].
  assert (L : Z.log2 v < 4 * Z.of_nat n).
  { apply Z.log2_lt_pow2; [lia |].
    rewrite Z.pow_mul_r by lia. exact Hv. }
  assert (Z.log2 v / 4 < Z.of_nat n) by (apply Z.div_lt_upper_bound; lia).
  pose proof (Z.log2_nonneg v).
  assert (0 <= Z.log2 v / 4) by (apply Z.div_pos; lia).
  lia.
Qed.

Lemma hex_len_gt (n : nat) (v : Z) :
  16 ^ Z.of_nat n <= v -> (n < Std.hex_len v)%nat.
Proof.
  intros Hv. unfold Std.hex_len.
  assert (0 < 16 ^ Z.of_nat n) by (apply Z.pow_pos_nonneg; lia).
  destruct (Z.leb_spec v 0) as [| Hpos]; [lia |].
  assert (L : 4 * Z.of_nat n <= Z.log2 v).
  { apply Z.log2_le_pow2; [lia |].
    rewrite Z.pow_mul_r by lia. exact Hv. }
  assert (Z.of_nat n <= Z.log2 v / 4) by (apply Z.div_le_lower_bound; lia).
  lia.
Qed.

(** A value that fits in [w] digits is printed on exactly [w] digits. *)
Lemma fmt_0x_fits (w : nat) (v : Z) :
  (1 <= w <= 8)%nat -> 0 <= v < 16 ^ Z.of_nat w ->
  Std.fmt_0x w v = Std.hex_fixed w v.
Proof.
  intros Hw Hv. unfold Std.fmt_0x.
  assert (16 ^ Z.of_nat w <= 2 ^ 32).
  { change (2 ^ 32) with (16 ^ Z.of_nat 8).
    apply Z.pow_le_mono_r; lia. }
  rewrite (wrap_small 32 v) by lia.
  pose proof (hex_len_le w v) as L.
  rewrite Nat.max_l by (apply L; lia).
  reflexivity.
Qed.

(** The conversions on the values the header's comments mention. *)
Example fmt_0x_examples :
  Std.fmt_0x 4 0x2901 = lit "2901" /\ Std.fmt_0x 4 0x1 = lit "0001" /\
  Std.fmt_0x 4 0x12345678 = lit "12345678" /\ Std.fmt_0x 8 0x180A = lit "0000180a".
Proof. repeat split. Qed.

Lemma firstn_fits {A} (n : nat) (l : list A) :
  (List.length l <= n)%nat -> firstn n l = l.
Proof. intros H; now apply firstn_all2. Qed.

(** * The numeric constructors *)

Lemma GattUuid_u16_uuid (part : Z) :
  uuid (GattUuid_u16 part) =
    lit "0000" ++ Std.hex_fixed 4 (wrap 16 part) ++ lit "-0000-1000-8000-00805f9b34fb".
Proof.
  cbv [GattUuid_u16 uuid Std.snprintf Std.sprintf].
  pose proof (wrap_range 16 part ltac:(lia)) as R.
  rewrite app_nil_r, fmt_0x_fits by (simpl; lia).
  rewrite firstn_fits by (rewrite hex_fixed_length; simpl; lia).
  reflexivity.
Qed.

Lemma GattUuid_u32_uuid (part : Z) :
  uuid (GattUuid_u32 part) =
    Std.hex_fixed (Nat.max 4 (Std.hex_len (wrap 32 part))) (wrap 32 part)
    ++ lit "-0000-1000-8000-00805f9b34fb".
Proof.
  cbv [GattUuid_u32 uuid Std.snprintf Std.sprintf].
  pose proof (wrap_range 32 part ltac:(lia)) as R.
  rewrite app_nil_r. unfold Std.fmt_0x.
  rewrite (wrap_small 32 (wrap 32 part)) by exact R.
  rewrite firstn_fits; [reflexivity |].
  rewrite hex_fixed_length.
  pose proof (hex_len_le 8 (wrap 32 part) ltac:(lia)) as L.
  change (16 ^ Z.of_nat 8) with (2 ^ 32) in L.
  change (9 - 1)%nat with 8%nat. specialize (L (proj2 R)). lia.
Qed.

Lemma GattUuid_parts_uuid (part1 part2 part3 part4 part5 : Z) :
  uuid (GattUuid_parts part1 part2 part3 part4 part5) =
    Std.hex_fixed 8 (wrap 32 part1) ++ lit "-" ++
    Std.hex_fixed 4 (wrap 16 part2) ++ lit "-" ++
    Std.hex_fixed 4 (wrap 16 part3) ++ lit "-" ++
    Std.hex_fixed 4 (wrap 16 part4) ++ lit "-" ++
    Std.hex_fixed 8 (Z.land (Z.shiftr (wrap 64 part5) 4) 0xffffffff) ++
    Std.hex_fixed 4 (Z.land (wrap 64 part5) 0xffff).
Proof.
  cbv [GattUuid_parts uuid Std.snprintf Std.sprintf].
  pose proof (wrap_range 32 part1 ltac:(lia)) as R1.
  pose proof (wrap_range 16 part2 ltac:(lia)) as R2.
  pose proof (wrap_range 16 part3 ltac:(lia)) as R3.
  pose proof (wrap_range 16 part4 ltac:(lia)) as R4.
  assert (Ra : 0 <= Z.land (Z.shiftr (wrap 64 part5) 4) 0xffffffff < 2 ^ 32).
  { change 0xffffffff with (Z.ones 32). rewrite Z.land_ones by lia.
    apply Z.mod_pos_bound; lia. }
  assert (Rb : 0 <= Z.land (wrap 64 part5) 0xffff < 2 ^ 16).
  { change 0xffff with (Z.ones 16). rewrite Z.land_ones by lia.
    apply Z.mod_pos_bound; lia. }
  rewrite (wrap_small 32 (Z.land (Z.shiftr _ 4) _)) by exact Ra.
  rewrite (wrap_small 32 (Z.land (wrap 64 part5) _)) by lia.
  rewrite !fmt_0x_fits by (simpl; lia).
  rewrite app_nil_r.
  apply firstn_fits.
  rewrite !length_app, !hex_fixed_length; simpl; lia.
Qed.

(** * Construction from text *)

Lemma bit_count_not_short (n : Z) :
  0 <= n < 2 ^ 30 -> n <> 4 -> n <> 8 -> n <> 32 ->
  let b := to_int (Std.size_t_mul n 4) in b <> 16 /\ b <> 32 /\ b <> 128.
Proof.
  intros H H4 H8 H32. unfold to_int, Std.size_t_mul, wrap.
  rewrite (Z.mod_small (n * 4)) by lia.
  destruct (Z.lt_ge_cases (n * 4) (2 ^ 31)) as [L | L].
  - rewrite Z.mod_small by lia. cbv zeta. lia.
  - replace ((n * 4 + 2 ^ 31) mod 2 ^ 32) with (n * 4 + 2 ^ 31 - 2 ^ 32)
      by (apply Z.mod_unique with (q := 1); lia).
    cbv zeta. lia.
Qed.

Lemma GattUuid_string_16 (h : str) :
  List.length (clean h) = 4%nat ->
  GattUuid_string h =
    Ok {| uuid := lit "0000" ++ clean h ++ lit "-0000-1000-8000-00805f9b34fb";
          bitCount := 16 |}.
Proof.
  intros H. unfold GattUuid_string, Std.length. rewrite H.
  change (to_int (Std.size_t_mul (Z.of_nat 4) 4)) with 16.
  cbv beta iota zeta. change (16 =? 16) with true. cbv iota.
  rewrite dashify_refines. unfold bind, ret. do 2 f_equal.
  unfold dashify_spec. rewrite !clean_app, clean_idempotent.
  destruct (clean h) as [| a [| b [| c [| d [| ]]]]]; try discriminate H.
  reflexivity.
Qed.

Lemma GattUuid_string_32 (h : str) :
  List.length (clean h) = 8%nat ->
  GattUuid_string h =
    Ok {| uuid := clean h ++ lit "-0000-1000-8000-00805f9b34fb";
          bitCount := 32 |}.
Proof.
  intros H. unfold GattUuid_string, Std.length. rewrite H.
  change (to_int (Std.size_t_mul (Z.of_nat 8) 4)) with 32.
  cbv beta iota zeta. change (32 =? 16) with false.
  change (32 =? 32) with true. cbv iota.
  rewrite dashify_refines. unfold bind, ret. do 2 f_equal.
  unfold dashify_spec. rewrite !clean_app, clean_idempotent.
  revert H. generalize (clean h) as c. intros c H.
  do 8 (destruct c as [| ? c]; [discriminate H |]).
  destruct c; [reflexivity | discriminate H].
Qed.

Lemma GattUuid_string_128 (h : str) :
  List.length (clean h) = 32%nat ->
  GattUuid_string h = Ok {| uuid := dashify_spec h; bitCount := 128 |}.
Proof.
  intros H. unfold GattUuid_string, Std.length. rewrite H.
  change (to_int (Std.size_t_mul (Z.of_nat 32) 4)) with 128.
  cbv beta iota zeta. change (128 =? 16) with false.
  change (128 =? 32) with false. change (128 =? 128) with true. cbv [negb].
  rewrite dashify_refines. unfold bind, ret. do 2 f_equal.
  unfold dashify_spec. now rewrite clean_idempotent.
Qed.

Lemma GattUuid_string_other (s : str) :
  let b := to_int (Std.size_t_mul (Std.length (clean s)) 4) in
  b <> 16 -> b <> 32 -> b <> 128 ->
  GattUuid_string s = Ok {| uuid := []; bitCount := 0 |}.
Proof.
  intros b H16 H32 H128. unfold GattUuid_string. fold b.
  destruct (Z.eqb_spec b 16); [contradiction |].
  destruct (Z.eqb_spec b 32); [contradiction |].
  destruct (Z.eqb_spec b 128); [contradiction |].
  reflexivity.
Qed.

(** Below [2^30] cleaned characters the bit count does not wrap, and every
    length other than 4, 8 and 32 gives the invalid instance. *)
Lemma GattUuid_string_invalid (s : str) :
  Std.length (clean s) < 2 ^ 30 ->
  List.length (clean s) <> 4%nat ->
  List.length (clean s) <> 8%nat ->
  List.length (clean s) <> 32%nat ->
  GattUuid_string s = Ok {| uuid := []; bitCount := 0 |}
  /\ toString {| uuid := []; bitCount := 0 |} = Ok [].
Proof.
  intros L H4 H8 H32. split; [| reflexivity].
  destruct (bit_count_not_short (Std.length (clean s))) as (A & B & C);
    unfold Std.length in *; try lia.
  now apply GattUuid_string_other.
Qed.

(** * The canonical form *)

(** Five blocks of lowercase hex digits of the right lengths, joined by
    separators, are in canonical form. *)
Lemma well_formed_blocks (a b c d e : str) :
  lower_hex_str a -> lower_hex_str b -> lower_hex_str c ->
  lower_hex_str d -> lower_hex_str e ->
  List.length a = 8%nat -> List.length b = 4%nat -> List.length c = 4%nat ->
  List.length d = 4%nat -> List.length e = 12%nat ->
  well_formed (a ++ lit "-" ++ b ++ lit "-" ++ c ++ lit "-" ++ d ++ lit "-" ++ e)
  = true.
Proof.
  intros Ha Hb Hc Hd He La Lb Lc Ld Le.
  fixed_length a La. fixed_length b Lb. fixed_length c Lc.
  fixed_length d Ld. fixed_length e Le.
  split_hex.
  cbn -[is_lower_hex].
  repeat match goal with H : is_lower_hex _ = true |- _ => rewrite H; clear H end.
  reflexivity.
Qed.

Lemma lower_hex_lit_0000 : lower_hex_str (lit "0000").
Proof. repeat constructor. Qed.

Lemma lower_hex_lit_1000 : lower_hex_str (lit "1000").
Proof. repeat constructor. Qed.

Lemma lower_hex_lit_8000 : lower_hex_str (lit "8000").
Proof. repeat constructor. Qed.

Lemma lower_hex_lit_node : lower_hex_str (lit "00805f9b34fb").
Proof. repeat constructor. Qed.

(** A short identifier of 8 lowercase hex digits, followed by the base
    suffix, is in canonical form. *)
Lemma well_formed_base (a : str) :
  lower_hex_str a -> List.length a = 8%nat ->
  well_formed (a ++ lit "-0000-1000-8000-00805f9b34fb") = true.
Proof.
  intros Ha La.
  apply (well_formed_blocks a (lit "0000") (lit "1000") (lit "8000")
           (lit "00805f9b34fb"));
    auto using lower_hex_lit_0000, lower_hex_lit_1000, lower_hex_lit_8000,
      lower_hex_lit_node.
Qed.

Lemma GattUuid_u16_well_formed (part : Z) :
  well_formed (uuid (GattUuid_u16 part)) = true.
Proof.
  rewrite GattUuid_u16_uuid, app_assoc.
  apply well_formed_base.
  - apply Forall_app; split; [apply lower_hex_lit_0000 | apply hex_fixed_lower].
  - rewrite length_app, hex_fixed_length; reflexivity.
Qed.

Lemma GattUuid_parts_well_formed (part1 part2 part3 part4 part5 : Z) :
  well_formed (uuid (GattUuid_parts part1 part2 part3 part4 part5)) = true.
Proof.
  rewrite GattUuid_parts_uuid.
  apply well_formed_blocks;
    try apply hex_fixed_lower; try apply hex_fixed_length.
  - apply Forall_app; split; apply hex_fixed_lower.
  - rewrite length_app, !hex_fixed_length; reflexivity.
Qed.

(** The 32-bit constructor reaches the canonical form exactly when the
    value needs all 8 digits. *)
Lemma GattUuid_u32_well_formed (part : Z) :
  2 ^ 28 <= wrap 32 part ->
  well_formed (uuid (GattUuid_u32 part)) = true.
Proof.
  intros H. rewrite GattUuid_u32_uuid.
  pose proof (wrap_range 32 part ltac:(lia)) as R.
  pose proof (hex_len_gt 7 (wrap 32 part) H) as L7.
  pose proof (hex_len_le 8 (wrap 32 part) ltac:(lia) (proj2 R)) as L8.
  replace (Nat.max 4 (Std.hex_len (wrap 32 part))) with 8%nat by lia.
  apply well_formed_base; [apply hex_fixed_lower | apply hex_fixed_length].
Qed.

(** Construction from text reaches the canonical form whenever it records
    a width, as long as the bit count does not wrap. *)
Lemma GattUuid_string_well_formed (s : str) (g : GattUuid) :
  Std.length (clean s) < 2 ^ 30 ->
  GattUuid_string s = Ok g ->
  bitCount g = 16 \/ bitCount g = 32 \/ bitCount g = 128 ->
  well_formed (uuid g) = true.
Proof.
  intros L E W.
  destruct (Nat.eq_dec (List.length (clean s)) 4) as [H4 | H4].
  { rewrite (GattUuid_string_16 s H4) in E. injection E as <-.
    change (well_formed ((lit "0000" ++ clean s)
                         ++ lit "-0000-1000-8000-00805f9b34fb") = true).
    apply well_formed_base.
    - apply Forall_app; split; [apply lower_hex_lit_0000 | apply clean_lower_hex].
    - rewrite length_app, H4; reflexivity. }
  destruct (Nat.eq_dec (List.length (clean s)) 8) as [H8 | H8].
  { rewrite (GattUuid_string_32 s H8) in E. injection E as <-.
    change (well_formed (clean s ++ lit "-0000-1000-8000-00805f9b34fb") = true).
    apply well_formed_base; [apply clean_lower_hex | exact H8]. }
  destruct (Nat.eq_dec (List.length (clean s)) 32) as [H32 | H32].
  { rewrite (GattUuid_string_128 s H32) in E. injection E as <-. cbv [uuid].
    unfold dashify_spec.
    pose proof (clean_lower_hex s) as Hc. revert Hc H32.
    generalize (clean s) as c. intros c Hc H32.
    fixed_length c H32. split_hex.
    cbn -[is_lower_hex].
    repeat match goal with H : is_lower_hex _ = true |- _ => rewrite H; clear H end.
    reflexivity. }
  destruct (GattUuid_string_invalid s L H4 H8 H32) as [E' _].
  rewrite E' in E. injection E as <-. simpl in W. lia.
Qed.

(** * Text against the integer constructors *)

(** C7. For every text [h] whose sanitized form is exactly 4 hex digits,
    the value of those digits is a 16-bit integer, construction from the
    text succeeds, and its canonical string is the one constructed from
    that integer. *)
Theorem text_16_agrees_with_u16 (h : str) :
  List.length (clean h) = 4%nat ->
  0 <= hex_value (clean h) < 2 ^ 16 /\
  exists g, GattUuid_string h = Ok g /\
            uuid g = uuid (GattUuid_u16 (hex_value (clean h))).
Proof.
  intros H.
  pose proof (hex_value_range (clean h)) as R. rewrite H in R.
  change (16 ^ Z.of_nat 4) with (2 ^ 16) in R.
  split; [exact R |].
  eexists; split; [apply (GattUuid_string_16 h H) |].
  rewrite GattUuid_u16_uuid, (wrap_small 16) by exact R.
  cbv [uuid]. rewrite <- H, hex_fixed_hex_value by apply clean_lower_hex.
  reflexivity.
Qed.

Lemma text_16_agrees_with_u16_witness :
  0 <= hex_value (clean (lit "29-01")) < 2 ^ 16 /\
  exists g, GattUuid_string (lit "29-01") = Ok g /\
            uuid g = uuid (GattUuid_u16 (hex_value (clean (lit "29-01")))).
Proof. exact (text_16_agrees_with_u16 (lit "29-01") eq_refl). Defined.

(** An 8-digit text and the 32-bit integer of its value give the same
    canonical string when the leading digit is not zero. *)
Lemma text_32_agrees_with_u32 (h : str) :
  List.length (clean h) = 8%nat ->
  2 ^ 28 <= hex_value (clean h) ->
  exists g, GattUuid_string h = Ok g /\
            uuid g = uuid (GattUuid_u32 (hex_value (clean h))).
Proof.
  intros H Hv.
  pose proof (hex_value_range (clean h)) as R. rewrite H in R.
  change (16 ^ Z.of_nat 8) with (2 ^ 32) in R.
  eexists; split; [apply (GattUuid_string_32 h H) |].
  rewrite GattUuid_u32_uuid, (wrap_small 32) by exact R.
  pose proof (hex_len_gt 7 (hex_value (clean h)) Hv) as L7.
  pose proof (hex_len_le 8 (hex_value (clean h)) ltac:(lia) (proj2 R)) as L8.
  replace (Nat.max 4 (Std.hex_len (hex_value (clean h)))) with 8%nat by lia.
  cbv [uuid]. rewrite <- H, hex_fixed_hex_value by apply clean_lower_hex.
  reflexivity.
Qed.

(** C1. At the text ["0000180A"], whose sanitized form is 8 hex digits of
    value [0x180A], the text gives [0000180a-0000-1000-8000-00805f9b34fb]
    and the 32-bit integer gives [180a-0000-1000-8000-00805f9b34fb]: the
    two canonical strings differ. *)
Theorem text_32_differs_from_u32_at_0000180A :
  List.length (clean (lit "0000180A")) = 8%nat /\
  hex_value (clean (lit "0000180A")) = 0x180A /\
  GattUuid_string (lit "0000180A") =
    Ok {| uuid := lit "0000180a-0000-1000-8000-00805f9b34fb"; bitCount := 32 |} /\
  GattUuid_u32 0x180A =
    {| uuid := lit "180a-0000-1000-8000-00805f9b34fb"; bitCount := 32 |} /\
  lit "0000180a-0000-1000-8000-00805f9b34fb" <> uuid (GattUuid_u32 0x180A).
Proof.
  repeat split; try reflexivity. vm_compute. discriminate.
Qed.

(** * The 32-bit integer constructor *)

Lemma dash_in_first_8 (a rest : str) :
  (List.length a <= 7)%nat -> In "-"%char (firstn 8 (a ++ "-"%char :: rest)).
Proof.
  intros H. rewrite firstn_app. apply in_or_app; right.
  destruct (8 - List.length a)%nat as [| k] eqn:E; [lia |].
  simpl; auto.
Qed.

(** C4. For every 32-bit value below [0x10000000] (the value [0x180A] is
    one), the canonical string of the 32-bit integer constructor is shorter
    than 36 characters, and its 32-bit view, which is the first 8
    characters of the canonical string and what [toString] returns for
    this width, contains a ['-']. *)
Theorem u32_short_value_view_has_dash (v : Z) :
  0 <= v < 0x10000000 ->
  (List.length (uuid (GattUuid_u32 v)) < 36)%nat /\
  exists view,
    toString32 (GattUuid_u32 v) = Ok view /\
    toString (GattUuid_u32 v) = Ok view /\
    view = firstn 8 (uuid (GattUuid_u32 v)) /\
    In "-"%char view /\
    ~ lower_hex_str view.
Proof.
  intros Hv.
  assert (Hw : wrap 32 v = v) by (apply wrap_small; lia).
  pose proof (hex_len_le 7 v ltac:(lia) ltac:(simpl; lia)) as L.
  pose proof (GattUuid_u32_uuid v) as U. rewrite Hw in U.
  set (m := Nat.max 4 (Std.hex_len v)) in U.
  assert (Hm : (4 <= m <= 7)%nat) by (unfold m; lia).
  assert (Hin : In "-"%char (firstn 8 (uuid (GattUuid_u32 v)))).
  { rewrite U. apply dash_in_first_8. rewrite hex_fixed_length; lia. }
  split.
  { rewrite U, length_app, hex_fixed_length; simpl; lia. }
  exists (firstn 8 (uuid (GattUuid_u32 v))).
  assert (T : toString32 (GattUuid_u32 v) = Ok (firstn 8 (uuid (GattUuid_u32 v)))).
  { unfold toString32.
    destruct (uuid (GattUuid_u32 v)) eqn:E; [destruct Hin |].
    reflexivity. }
  repeat split; auto.
  intros F. unfold lower_hex_str in F. rewrite Forall_forall in F.
  specialize (F _ Hin). discriminate F.
Qed.

Lemma u32_short_value_view_has_dash_witness :
  (List.length (uuid (GattUuid_u32 0x180A)) < 36)%nat /\
  exists view,
    toString32 (GattUuid_u32 0x180A) = Ok view /\
    toString (GattUuid_u32 0x180A) = Ok view /\
    view = firstn 8 (uuid (GattUuid_u32 0x180A)) /\
    In "-"%char view /\
    ~ lower_hex_str view.
Proof. apply (u32_short_value_view_has_dash 0x180A). lia. Defined.

(** C2. The 32-bit integer constructor at [0x180A] records the width 32
    and holds [180a-0000-1000-8000-00805f9b34fb], which has 32 characters
    and is not in canonical form. *)
Theorem u32_breaks_canonical_form_at_0x180A :
  bitCount (GattUuid_u32 0x180A) = 32 /\
  uuid (GattUuid_u32 0x180A) = lit "180a-0000-1000-8000-00805f9b34fb" /\
  List.length (uuid (GattUuid_u32 0x180A)) = 32%nat /\
  well_formed (uuid (GattUuid_u32 0x180A)) = false.
Proof. repeat split. Qed.

(** * The five-field constructor *)

(** What the constructor puts in the E block. *)
Lemma GattUuid_parts_block_E (part1 part2 part3 part4 part5 : Z) :
  block_E (uuid (GattUuid_parts part1 part2 part3 part4 part5)) =
    Std.hex_fixed 8 (Z.land (Z.shiftr (wrap 64 part5) 4) 0xffffffff) ++
    Std.hex_fixed 4 (Z.land (wrap 64 part5) 0xffff).
Proof.
  rewrite GattUuid_parts_uuid. unfold block_E.
  repeat rewrite app_assoc.
  repeat rewrite <- (app_assoc _ _ (Std.hex_fixed 4 (Z.land _ _))).
  rewrite skipn_app, skipn_all2
    by (repeat rewrite length_app; rewrite !hex_fixed_length; simpl; lia).
  repeat rewrite length_app. rewrite !hex_fixed_length. reflexivity.
Qed.

(** C3. At the fifth argument [0x123456789abc] the E block is
    [456789ab9abc], while the low 48 bits of the argument on 12 digits are
    [123456789abc]. *)
Theorem parts_block_E_at_0x123456789abc :
  block_E (uuid (GattUuid_parts 0 0 0 0 0x123456789abc)) = lit "456789ab9abc" /\
  Std.hex_fixed 12 (Z.land 0x123456789abc (Z.ones 48)) = lit "123456789abc" /\
  block_E (uuid (GattUuid_parts 0 0 0 0 0x123456789abc))
    <> Std.hex_fixed 12 (Z.land 0x123456789abc (Z.ones 48)).
Proof.
  split; [reflexivity |]. split; [reflexivity |].
  vm_compute. discriminate.
Qed.

Lemma masked_bit (k a b i : Z) :
  Z.land a (Z.ones k) = Z.land b (Z.ones k) ->
  0 <= i < k -> Z.testbit a i = Z.testbit b i.
Proof.
  intros H Hi.
  assert (E : forall x, Z.testbit (Z.land x (Z.ones k)) i = Z.testbit x i).
  { intros x. rewrite Z.land_spec, Z.ones_spec_low by lia.
    apply andb_true_r. }
  rewrite <- (E a), <- (E b). now rewrite H.
Qed.

Lemma wrap_testbit (w a i : Z) :
  0 <= i < w -> Z.testbit (wrap w a) i = Z.testbit a i.
Proof. intros H. unfold wrap. apply Z.mod_pow2_bits_low; lia. Qed.

(** C5. Two calls of the five-field constructor that agree on the four
    leading fields and on bits 0 to 35 of the fifth give the same canonical
    string: bits 36 to 47 of the fifth field are never read. *)
Theorem parts_ignores_bits_36_to_47 (part1 part2 part3 part4 p5 p5' : Z) :
  Z.land p5 (Z.ones 36) = Z.land p5' (Z.ones 36) ->
  uuid (GattUuid_parts part1 part2 part3 part4 p5) =
  uuid (GattUuid_parts part1 part2 part3 part4 p5').
Proof.
  intros H. rewrite !GattUuid_parts_uuid.
  assert (A : Z.land (Z.shiftr (wrap 64 p5) 4) 0xffffffff =
              Z.land (Z.shiftr (wrap 64 p5') 4) 0xffffffff).
  { change 0xffffffff with (Z.ones 32).
    apply Z.bits_inj'. intros n Hn.
    rewrite !Z.land_spec, !Z.shiftr_spec by lia.
    destruct (Z.lt_ge_cases n 32) as [Lt | Ge].
    - rewrite !wrap_testbit by lia.
      now rewrite (masked_bit 36 p5 p5' (n + 4) H) by lia.
    - rewrite Z.ones_spec_high by lia. now rewrite !andb_false_r. }
  assert (B : Z.land (wrap 64 p5) 0xffff = Z.land (wrap 64 p5') 0xffff).
  { change 0xffff with (Z.ones 16).
    apply Z.bits_inj'. intros n Hn.
    rewrite !Z.land_spec.
    destruct (Z.lt_ge_cases n 16) as [Lt | Ge].
    - rewrite !wrap_testbit by lia.
      now rewrite (masked_bit 36 p5 p5' n H) by lia.
    - rewrite Z.ones_spec_high by lia. now rewrite !andb_false_r. }
  now rewrite A, B.
Qed.

Lemma parts_ignores_bits_36_to_47_witness :
  Z.land 0x123456789abc (Z.ones 48) <> Z.land 0xfed456789abc (Z.ones 48) /\
  uuid (GattUuid_parts 1 2 3 4 0x123456789abc) =
  uuid (GattUuid_parts 1 2 3 4 0xfed456789abc).
Proof.
  split; [vm_compute; discriminate |].
  apply (parts_ignores_bits_36_to_47 1 2 3 4 0x123456789abc 0xfed456789abc).
  reflexivity.
Defined.

(** * Sanitizing and dashifying *)

(** C6. For every string [s], [dashify s] returns a string, and sanitizing
    that string gives [clean s]. *)
Theorem clean_dashify (s : str) :
  exists d, dashify s = Ok d /\ clean d = clean s.
Proof.
  exists (dashify_spec s). split.
  - apply dashify_refines.
  - apply clean_dashify_spec.
Qed.

(** C9. For every string [s], [dashify s] returns without an error the
    sanitized [s] with a separator put in, in this order, at the offsets 8,
    13, 18 and 23 of the string as modified so far, an offset the string
    does not reach being skipped; and ["0000180A.0000.100"] gives
    ["0000180a-0000-100"], which holds two separators. *)
Theorem dashify_inserts_in_order :
  (forall s, dashify s =
             Ok (insert_if_room
                   (insert_if_room
                      (insert_if_room
                         (insert_if_room (clean s) 8) 13) 18) 23)) /\
  (forall s, dashify s = Ok (dashify_spec s)) /\
  clean (lit "0000180A.0000.100") = lit "0000180a0000100" /\
  dashify (lit "0000180A.0000.100") = Ok (lit "0000180a-0000-100") /\
  count_dash (lit "0000180a-0000-100") = 2%nat.
Proof.
  split; [exact dashify_refines |].
  split; [exact dashify_refines |].
  repeat split.
Qed.

(** * Known answers *)

(** C10. The text ["0000180A"] gives
    [0000180a-0000-1000-8000-00805f9b34fb] with width 32, the text
    ["2901"] gives [00002901-0000-1000-8000-00805f9b34fb] with width 16,
    and the 16-bit integer [0x2901] gives the canonical string of the text
    ["2901"]. *)
Theorem known_answers :
  GattUuid_string (lit "0000180A") =
    Ok {| uuid := lit "0000180a-0000-1000-8000-00805f9b34fb"; bitCount := 32 |} /\
  GattUuid_string (lit "2901") =
    Ok {| uuid := lit "00002901-0000-1000-8000-00805f9b34fb"; bitCount := 16 |} /\
  GattUuid_u16 0x2901 =
    {| uuid := lit "00002901-0000-1000-8000-00805f9b34fb"; bitCount := 16 |} /\
  GattUuid_cstr (lit "0000180A") = GattUuid_string (lit "0000180A") /\
  GattUuid_cstr (lit "2901") = GattUuid_string (lit "2901").
Proof. repeat split. Qed.

(** * Text whose bit count wraps *)

Lemma lower_hex_repeat_0 (n : nat) : lower_hex_str (repeat "0"%char n).
Proof.
  apply Forall_forall. intros c H. apply repeat_spec in H. now subst c.
Qed.

(** A text of [2^30 + 4] hex digits: [length() * 4] is [2^32 + 16], which
    the [int] member [bitCount] receives as 16. *)
Lemma GattUuid_string_wraps (m : nat) :
  Z.of_nat (16 + m) = 2 ^ 30 + 4 ->
  GattUuid_string (repeat "0"%char (16 + m)) =
    Ok {| uuid := lit "00000000-0000-0000-0000-" ++ repeat "0"%char m
                  ++ lit "00001000800000805f9b34fb";
          bitCount := 16 |}.
Proof.
  intros H. unfold GattUuid_string, Std.length.
  rewrite (clean_fixed _ (lower_hex_repeat_0 (16 + m))).
  rewrite repeat_length, H.
  change (to_int (Std.size_t_mul (2 ^ 30 + 4) 4)) with 16.
  cbv beta iota zeta. change (16 =? 16) with true. cbv iota.
  rewrite dashify_refines. unfold bind, ret. do 2 f_equal.
  unfold dashify_spec.
  rewrite !clean_app, (clean_fixed _ (lower_hex_repeat_0 (16 + m))).
  destruct m as [| m]; [discriminate H |].
  reflexivity.
Qed.

(** C8. The text of [2^30 + 4] characters ['0'] has a sanitized length of
    [2^30 + 4], which is not 4, 8 or 32; construction from it records the
    width 16 and a canonical string that is not empty, and [toString]
    returns ["0000"]. *)
Theorem text_of_2p30_plus_4_digits_gets_width_16 :
  let s := repeat "0"%char (16 + Z.to_nat (2 ^ 30 - 12)) in
  Std.length (clean s) = 2 ^ 30 + 4 /\
  exists g, GattUuid_string s = Ok g /\
            bitCount g = 16 /\
            uuid g <> [] /\
            toString g = Ok (lit "0000").
Proof.
  assert (H : Z.of_nat (16 + Z.to_nat (2 ^ 30 - 12)) = 2 ^ 30 + 4).
  { rewrite Nat2Z.inj_add, Z2Nat.id; [reflexivity | discriminate]. }
  cbv zeta. split.
  - unfold Std.length.
    now rewrite (clean_fixed _ (lower_hex_repeat_0 _)), repeat_length.
  - eexists. split; [apply (GattUuid_string_wraps _ H) |].
    split; [reflexivity |]. split; [discriminate | reflexivity].
Qed.


(** * More on the sanitizer *)

Lemma not_hex_tolower (c : ascii) : not_hex (Std.tolower c) = not_hex c.
Proof. all_chars c; reflexivity. Qed.

Lemma not_hex_is_hex_char (c : ascii) : negb (not_hex c) = is_hex_char c.
Proof. unfold not_hex, is_hex_char. apply negb_involutive. Qed.

Lemma tolower_idempotent (c : ascii) :
  Std.tolower (Std.tolower c) = Std.tolower c.
Proof. all_chars c; reflexivity. Qed.

Lemma clean_cons_hex (c : ascii) (s : str) :
  is_lower_hex c = true -> clean (c :: s) = c :: clean s.
Proof.
  intros H. rewrite clean_cons.
  rewrite (clean_fixed [c]) by (constructor; [exact H | constructor]).
  reflexivity.
Qed.

Lemma clean_cons_dash (s : str) : clean ("-"%char :: s) = clean s.
Proof. now rewrite clean_cons. Qed.


(** X1. [clean] returns lowercase hex digits only, and never more
    characters than it was given. *)
Theorem clean_gives_lower_hex_only (s : str) :
  lower_hex_str (clean s) /\ (List.length (clean s) <= List.length s)%nat.
Proof. split; [apply clean_lower_hex | apply clean_length]. Qed.

(** X2. The strings [clean] leaves unchanged are exactly the strings of
    lowercase hex digits; so [clean] applied twice is [clean]. *)
Theorem clean_fixed_points (s : str) :
  (clean s = s <-> lower_hex_str s) /\ clean (clean s) = clean s.
Proof.
  split; [split |].
  - intros E. rewrite <- E. apply clean_lower_hex.
  - apply clean_fixed.
  - apply clean_idempotent.
Qed.

(** X3. Sanitizing a concatenation gives the concatenation of the
    sanitized parts. *)
Theorem clean_concat (a b : str) : clean (a ++ b) = clean a ++ clean b.
Proof.
  rewrite !clean_eq, map_app. apply filter_app.
Qed.

(** X4. [clean], which lowers the case first and removes afterwards, keeps
    exactly the characters that are hex digits of either case, in their
    order, in lower case. *)
Theorem clean_keeps_hex_chars (s : str) :
  clean s = map Std.tolower (filter is_hex_char s).
Proof.
  rewrite clean_eq. induction s as [| c s IH]; [reflexivity |].
  simpl. rewrite not_hex_tolower, not_hex_is_hex_char, IH.
  now destruct (is_hex_char c).
Qed.

(** X5. Sanitizing ignores the case of its input. *)
Theorem clean_ignores_case (s : str) :
  clean (Std.transform Std.tolower s) = clean s.
Proof.
  rewrite !clean_eq. unfold Std.transform. rewrite map_map.
  f_equal. apply map_ext. intros c. apply tolower_idempotent.
Qed.

(** * More on the dashifier *)





(** X8. An input with at most 8 hex digits, the empty one included, is
    returned sanitized and without a separator. *)
Theorem dashify_short (s : str) :
  (List.length (clean s) <= 8)%nat -> dashify s = Ok (clean s).
Proof.
  intros H. rewrite dashify_refines. f_equal.
  unfold dashify_spec, insert_if_room. simpl fold_left.
  destruct (Nat.ltb_spec 8 (List.length (clean s))); [lia |].
  destruct (Nat.ltb_spec 13 (List.length (clean s))); [lia |].
  destruct (Nat.ltb_spec 18 (List.length (clean s))); [lia |].
  destruct (Nat.ltb_spec 23 (List.length (clean s))); [lia |].
  reflexivity.
Qed.

Lemma dashify_short_witness :
  dashify (lit "18:0A") = Ok (clean (lit "18:0A")).
Proof. apply (dashify_short (lit "18:0A")). vm_compute. lia. Defined.

(** X9. An input with more than 20 hex digits gets all four separators,
    after its 8th, 12th, 16th and 20th digit, and everything from the 21st
    digit on is kept as one last block, however long. *)
Theorem dashify_long (s : str) :
  (20 < List.length (clean s))%nat ->
  dashify s =
    Ok (firstn 8 (clean s) ++ lit "-" ++
        firstn 4 (skipn 8 (clean s)) ++ lit "-" ++
        firstn 4 (skipn 12 (clean s)) ++ lit "-" ++
        firstn 4 (skipn 16 (clean s)) ++ lit "-" ++
        skipn 20 (clean s)).
Proof.
  intros H. rewrite dashify_refines. f_equal.
  unfold dashify_spec. revert H. generalize (clean s) as c. intros c H.
  do 21 (destruct c as [| ? c]; [simpl in H; lia |]).
  reflexivity.
Qed.

Lemma dashify_long_witness :
  dashify (lit "0123456789abcdef0123456789abcdef01234567") =
    Ok (firstn 8 (clean (lit "0123456789abcdef0123456789abcdef01234567")) ++ lit "-" ++
        firstn 4 (skipn 8 (clean (lit "0123456789abcdef0123456789abcdef01234567"))) ++ lit "-" ++
        firstn 4 (skipn 12 (clean (lit "0123456789abcdef0123456789abcdef01234567"))) ++ lit "-" ++
        firstn 4 (skipn 16 (clean (lit "0123456789abcdef0123456789abcdef01234567"))) ++ lit "-" ++
        skipn 20 (clean (lit "0123456789abcdef0123456789abcdef01234567"))).
Proof.
  apply (dashify_long (lit "0123456789abcdef0123456789abcdef01234567")).
  vm_compute. lia.
Defined.

(** X10. Construction from a dashified text is construction from the
    text: separators in the places [dashify] chooses never change the
    identifier. *)
Theorem GattUuid_string_of_dashified (s : str) :
  (d <- dashify s ;; GattUuid_string d) = GattUuid_string s.
Proof.
  rewrite dashify_refines. unfold bind, GattUuid_string.
  now rewrite clean_dashify_spec.
Qed.

(** X11. Construction from text ignores the case of the text. *)
Theorem GattUuid_string_ignores_case (s : str) :
  GattUuid_string (Std.transform Std.tolower s) = GattUuid_string s.
Proof.
  unfold GattUuid_string, Std.transform.
  assert (E : clean (map Std.tolower s) = clean s).
  { rewrite !clean_eq, map_map. f_equal. apply map_ext.
    intros c. apply tolower_idempotent. }
  now rewrite E.
Qed.

(** * More on construction from text *)

Lemma bit_count_lower (n k : Z) :
  0 <= n -> 0 <= k < 2 ^ 31 ->
  to_int (Std.size_t_mul n 4) = k -> k <= 4 * n.
Proof.
  unfold to_int, Std.size_t_mul, wrap. intros Hn Hk E.
  pose proof (Z.mod_pos_bound (n * 4) (2 ^ 64) ltac:(lia)) as B.
  assert (Q : 0 <= n * 4 / 2 ^ 64) by (apply Z.div_pos; lia).
  pose proof (Z.div_mod (n * 4) (2 ^ 64) ltac:(lia)) as D.
  set (r := (n * 4) mod 2 ^ 64) in *.
  assert (R : k <= r).
  { pose proof (Z.mod_pos_bound (r + 2 ^ 31) (2 ^ 32) ltac:(lia)) as B'.
    assert (M : (r + 2 ^ 31) mod 2 ^ 32 = k + 2 ^ 31) by lia.
    pose proof (Z.div_mod (r + 2 ^ 31) (2 ^ 32) ltac:(lia)) as D'.
    rewrite M in D'.
    assert (0 <= (r + 2 ^ 31) / 2 ^ 32) by (apply Z.div_pos; lia).
    lia. }
  lia.
Qed.

(** What the text constructor returns, by the bit count it computes. *)
Lemma GattUuid_string_total (s : str) :
  let b := to_int (Std.size_t_mul (Std.length (clean s)) 4) in
  GattUuid_string s =
    Ok (if b =? 16 then
          {| uuid := dashify_spec (lit "0000" ++ clean s
                                   ++ lit "-0000-1000-8000-00805f9b34fb");
             bitCount := 16 |}
        else if b =? 32 then
          {| uuid := dashify_spec (clean s ++ lit "-0000-1000-8000-00805f9b34fb");
             bitCount := 32 |}
        else if b =? 128 then
          {| uuid := dashify_spec (clean s); bitCount := 128 |}
        else {| uuid := []; bitCount := 0 |}).
Proof.
  intros b. unfold GattUuid_string. fold b.
  destruct (Z.eqb_spec b 16) as [-> | _].
  { now rewrite dashify_refines. }
  destruct (Z.eqb_spec b 32) as [-> | _].
  { now rewrite dashify_refines. }
  destruct (Z.eqb_spec b 128) as [-> | _]; cbv [negb].
  { now rewrite dashify_refines. }
  reflexivity.
Qed.

Lemma dashify_spec_length (s : str) :
  (List.length (clean s) <= List.length (dashify_spec s))%nat.
Proof.
  unfold dashify_spec; simpl fold_left.
  repeat (etransitivity; [| apply insert_if_room_length]). lia.
Qed.

(** The canonical string of a text construction is empty or has at least
    32 characters. *)
Lemma GattUuid_string_length (s : str) (g : GattUuid) :
  GattUuid_string s = Ok g ->
  (bitCount g = 0 /\ uuid g = []) \/
  ((bitCount g = 16 \/ bitCount g = 32 \/ bitCount g = 128)
   /\ (32 <= List.length (uuid g))%nat).
Proof.
  rewrite GattUuid_string_total. cbv zeta.
  pose proof (bit_count_lower (Std.length (clean s))) as B.
  unfold Std.length in *.
  set (b := to_int (Std.size_t_mul (Z.of_nat (List.length (clean s))) 4)) in *.
  intros E. injection E as <-.
  destruct (Z.eqb_spec b 16) as [E16 | _].
  { right. split; [auto |]. cbv [uuid].
    etransitivity; [| apply dashify_spec_length].
    change (32 <= List.length (clean (lit "0000" ++ clean s
                                  ++ lit "-0000-1000-8000-00805f9b34fb")))%nat.
    rewrite !clean_app, !length_app, clean_idempotent. simpl.
    specialize (B 16 ltac:(lia) ltac:(lia) E16). lia. }
  destruct (Z.eqb_spec b 32) as [E32 | _].
  { right. split; [auto |]. cbv [uuid].
    etransitivity; [| apply dashify_spec_length].
    change (32 <= List.length (clean (clean s
                                  ++ lit "-0000-1000-8000-00805f9b34fb")))%nat.
    rewrite !clean_app, !length_app, clean_idempotent. simpl.
    specialize (B 32 ltac:(lia) ltac:(lia) E32). lia. }
  destruct (Z.eqb_spec b 128) as [E128 | _].
  { right. split; [auto |]. cbv [uuid].
    etransitivity; [| apply dashify_spec_length].
    rewrite clean_idempotent.
    specialize (B 128 ltac:(lia) ltac:(lia) E128). lia. }
  left. split; reflexivity.
Qed.

(** X12. Construction from text never throws; the width it records is 0,
    16, 32 or 128; and the canonical string is empty exactly when the
    width is 0. *)
Theorem GattUuid_string_returns (s : str) :
  exists g, GattUuid_string s = Ok g /\
    (bitCount g = 0 \/ bitCount g = 16 \/ bitCount g = 32 \/ bitCount g = 128) /\
    (uuid g = [] <-> bitCount g = 0).
Proof.
  pose proof (GattUuid_string_total s) as T. cbv zeta in T.
  eexists. split; [exact T |].
  destruct (GattUuid_string_length s _ T) as [[B U] | [B L]].
  - rewrite B, U. split; [auto | split; auto].
  - split; [tauto |]. split.
    + intros U. rewrite U in L. simpl in L. lia.
    + intros Z0. lia.
Qed.

(** * The accessors *)

(** Every constructed identifier has an empty canonical string or one of
    at least 32 characters. *)
Lemma constructed_length (g : GattUuid) :
  constructed g -> uuid g = [] \/ (32 <= List.length (uuid g))%nat.
Proof.
  intros [s g' E | p g' E | part | part | p1 p2 p3 p4 p5].
  - destruct (GattUuid_string_length s g' E) as [[_ U] | [_ L]]; auto.
  - destruct (GattUuid_string_length _ g' E) as [[_ U] | [_ L]]; auto.
  - right. rewrite GattUuid_u16_uuid, !length_app, hex_fixed_length. simpl. lia.
  - right. rewrite GattUuid_u32_uuid, !length_app, hex_fixed_length.
    change (List.length (lit "-0000-1000-8000-00805f9b34fb")) with 28%nat. lia.
  - right. rewrite GattUuid_parts_uuid, !length_app, !hex_fixed_length. simpl. lia.
Qed.

Lemma firstn_length_exact {A} (n : nat) (l : list A) :
  (n <= List.length l)%nat -> List.length (firstn n l) = n.
Proof. intros H. rewrite length_firstn. lia. Qed.

(** X13. On an identifier built by any of the five constructors no
    accessor throws: [toString16] returns the empty string or 4
    characters, [toString32] the empty string or 8 characters,
    [toString128] the canonical string, and [toString] one of the three. *)
Theorem accessors_never_throw (g : GattUuid) :
  constructed g ->
  exists a b,
    toString16 g = Ok a /\ (a = [] \/ List.length a = 4%nat) /\
    toString32 g = Ok b /\ (b = [] \/ List.length b = 8%nat) /\
    toString128 g = Ok (uuid g) /\
    (toString g = Ok a \/ toString g = Ok b \/ toString g = Ok (uuid g)).
Proof.
  intros C. destruct (constructed_length g C) as [U | L].
  - exists [], []. unfold toString, toString16, toString32, toString128, ret.
    rewrite U. simpl. repeat split; auto.
    destruct (bitCount g =? 16); auto. destruct (bitCount g =? 32); auto.
  - exists (firstn 4 (skipn 4 (uuid g))), (firstn 8 (skipn 0 (uuid g))).
    unfold toString, toString16, toString32, toString128, ret, Std.substr.
    destruct (uuid g) as [| c u] eqn:E; [simpl in L; lia |].
    cbn [Std.empty].
    destruct (Nat.ltb_spec (List.length (c :: u)) 4) as [F | _]; [lia |].
    destruct (Nat.ltb_spec (List.length (c :: u)) 0) as [F | _]; [lia |].
    repeat split; auto.
    + right. apply firstn_length_exact. rewrite length_skipn. lia.
    + right. apply firstn_length_exact. rewrite length_skipn. lia.
    + destruct (bitCount g =? 16); auto. destruct (bitCount g =? 32); auto.
Qed.

Lemma accessors_never_throw_witness :
  exists a b,
    toString16 (GattUuid_u32 0x180A) = Ok a /\ (a = [] \/ List.length a = 4%nat) /\
    toString32 (GattUuid_u32 0x180A) = Ok b /\ (b = [] \/ List.length b = 8%nat) /\
    toString128 (GattUuid_u32 0x180A) = Ok (uuid (GattUuid_u32 0x180A)) /\
    (toString (GattUuid_u32 0x180A) = Ok a \/ toString (GattUuid_u32 0x180A) = Ok b
     \/ toString (GattUuid_u32 0x180A) = Ok (uuid (GattUuid_u32 0x180A))).
Proof. apply (accessors_never_throw (GattUuid_u32 0x180A)). apply from_u32. Defined.

(** X14. For a text whose sanitized form has 4 or 8 hex digits,
    [toString] of the identifier constructed from it is that sanitized
    form. *)
Theorem toString_of_short_text (h : str) :
  List.length (clean h) = 4%nat \/ List.length (clean h) = 8%nat ->
  (g <- GattUuid_string h ;; toString g) = Ok (clean h).
Proof.
  intros [H | H].
  - rewrite (GattUuid_string_16 h H). unfold bind.
    revert H. generalize (clean h) as c. intros c H.
    fixed_length c H. reflexivity.
  - rewrite (GattUuid_string_32 h H). unfold bind.
    revert H. generalize (clean h) as c. intros c H.
    fixed_length c H. reflexivity.
Qed.

Lemma toString_of_short_text_witness :
  (g <- GattUuid_string (lit "18-0A") ;; toString g) = Ok (clean (lit "18-0A")).
Proof. apply (toString_of_short_text (lit "18-0A")). left. reflexivity. Defined.

(** X15. A string in canonical form is a fixed point of construction from
    text: the identifier holds the very same string, with the width 128,
    and [toString] returns it. *)
Theorem GattUuid_string_of_canonical (s : str) :
  well_formed s = true ->
  GattUuid_string s = Ok {| uuid := s; bitCount := 128 |} /\
  toString {| uuid := s; bitCount := 128 |} = Ok s.
Proof.
  intros W. split; [| reflexivity].
  unfold well_formed in W. apply andb_prop in W as [L C].
  apply Nat.eqb_eq in L. fixed_length s L.
  cbn -[is_lower_hex Ascii.eqb] in C.
  repeat match goal with
         | H : _ && _ = true |- _ => apply andb_prop in H as [? H]
         end.
  repeat match goal with
         | H : Ascii.eqb _ "-" = true |- _ => apply Ascii.eqb_eq in H; subst
         end.
  match goal with
  | |- GattUuid_string ?x = _ =>
      assert (E : exists c, clean x = c /\ List.length c = 32%nat
                            /\ fold_left insert_if_room [8; 13; 18; 23]%nat c = x)
  end.
  { eexists. split.
    - repeat first [ rewrite clean_cons_hex by assumption
                   | rewrite clean_cons_dash ].
      reflexivity.
    - split; reflexivity. }
  destruct E as (c & Ec & Lc & Fc).
  rewrite GattUuid_string_128 by (rewrite Ec; exact Lc).
  unfold dashify_spec. rewrite Ec, Fc. reflexivity.
Qed.

Lemma GattUuid_string_of_canonical_witness :
  GattUuid_string (lit "0000180a-0000-1000-8000-00805f9b34fb") =
    Ok {| uuid := lit "0000180a-0000-1000-8000-00805f9b34fb"; bitCount := 128 |} /\
  toString {| uuid := lit "0000180a-0000-1000-8000-00805f9b34fb"; bitCount := 128 |}
    = Ok (lit "0000180a-0000-1000-8000-00805f9b34fb").
Proof.
  apply (GattUuid_string_of_canonical (lit "0000180a-0000-1000-8000-00805f9b34fb")).
  reflexivity.
Defined.

(** * More on the numeric constructors *)

Lemma digit_val_hex_digit (d : Z) :
  0 <= d < 16 -> digit_val (Std.hex_digit d) = d.
Proof.
  intros H.
  assert (E : d = 0 \/ d = 1 \/ d = 2 \/ d = 3 \/ d = 4 \/ d = 5 \/ d = 6
              \/ d = 7 \/ d = 8 \/ d = 9 \/ d = 10 \/ d = 11 \/ d = 12
              \/ d = 13 \/ d = 14 \/ d = 15) by lia.
  repeat (destruct E as [-> | E]; [reflexivity |]).
  subst d; reflexivity.
Qed.

(** Reading back [n] printed digits gives the value modulo [16^n]. *)
Lemma hex_value_hex_fixed (n : nat) (v : Z) :
  hex_value (Std.hex_fixed n v) = v mod 16 ^ Z.of_nat n.
Proof.
  revert v. induction n as [| n IH]; intros v.
  - simpl. unfold hex_value. simpl. now rewrite Z.mod_1_r.
  - cbn [Std.hex_fixed]. rewrite hex_value_snoc, IH.
    rewrite digit_val_hex_digit by (apply Z.mod_pos_bound; lia).
    rewrite Nat2Z.inj_succ, Z.pow_succ_r by lia.
    assert (0 < 16 ^ Z.of_nat n) by (apply Z.pow_pos_nonneg; lia).
    rewrite (Z.rem_mul_r v 16 (16 ^ Z.of_nat n)) by lia. lia.
Qed.

Lemma hex_len_bound (v : Z) : v < 16 ^ Z.of_nat (Std.hex_len v).
Proof.
  unfold Std.hex_len. destruct (Z.leb_spec v 0) as [H | H].
  - simpl. lia.
  - pose proof (Z.log2_spec v H) as [_ U].
    pose proof (Z.log2_nonneg v) as N.
    assert (P : 0 <= Z.log2 v / 4) by (apply Z.div_pos; lia).
    rewrite Nat2Z.inj_add, Z2Nat.id by exact P.
    change 16 with (2 ^ 4) at 1. rewrite <- Z.pow_mul_r by lia.
    eapply Z.lt_le_trans; [exact U |].
    apply Z.pow_le_mono_r; [lia |].
    pose proof (Z.div_mod (Z.log2 v) 4 ltac:(lia)) as D.
    pose proof (Z.mod_pos_bound (Z.log2 v) 4 ltac:(lia)) as B.
    change (Z.of_nat 1) with 1. lia.
Qed.

(** The digits [%0wx] prints denote the value printed. *)
Lemma hex_value_fmt_0x (w : nat) (v : Z) :
  hex_value (Std.fmt_0x w v) = wrap 32 v.
Proof.
  unfold Std.fmt_0x. rewrite hex_value_hex_fixed.
  pose proof (wrap_range 32 v ltac:(lia)) as R.
  pose proof (hex_len_bound (wrap 32 v)) as B.
  apply Z.mod_small. split; [lia |].
  eapply Z.lt_le_trans; [exact B |].
  apply Z.pow_le_mono_r; lia.
Qed.

Lemma firstn_app_exact {A} (n : nat) (a b : list A) :
  List.length a = n -> firstn n (a ++ b) = a.
Proof.
  intros <-. rewrite firstn_app, Nat.sub_diag, firstn_all. simpl.
  apply app_nil_r.
Qed.

(** X16. The 16-bit constructor and [toString] are a round trip: for a
    16-bit value, [toString] returns 4 lowercase hex digits whose value is
    the argument. *)
Theorem toString_of_u16_round_trip (part : Z) :
  0 <= part < 2 ^ 16 ->
  exists t, toString (GattUuid_u16 part) = Ok t /\
            List.length t = 4%nat /\ lower_hex_str t /\ hex_value t = part.
Proof.
  intros H. exists (Std.hex_fixed 4 part).
  split; [| split; [apply hex_fixed_length | split; [apply hex_fixed_lower |]]].
  - unfold toString, toString16, Std.substr.
    change (bitCount (GattUuid_u16 part) =? 16) with true. cbv iota.
    rewrite GattUuid_u16_uuid, (wrap_small 16) by exact H.
    change (lit "0000" ++ Std.hex_fixed 4 part ++ lit "-0000-1000-8000-00805f9b34fb")
      with ("0"%char :: "0"%char :: "0"%char :: "0"%char ::
            Std.hex_fixed 4 part ++ lit "-0000-1000-8000-00805f9b34fb").
    cbn [Std.empty List.length Nat.ltb Nat.leb skipn].
    now rewrite firstn_app_exact by apply hex_fixed_length.
  - rewrite hex_value_hex_fixed. apply Z.mod_small.
    change (16 ^ Z.of_nat 4) with (2 ^ 16). exact H.
Qed.

Lemma toString_of_u16_round_trip_witness :
  exists t, toString (GattUuid_u16 0x2901) = Ok t /\
            List.length t = 4%nat /\ lower_hex_str t /\ hex_value t = 0x2901.
Proof. apply (toString_of_u16_round_trip 0x2901). lia. Defined.

(** X17. Two 16-bit values give the same identifier exactly when they are
    equal. *)
Theorem GattUuid_u16_injective (a b : Z) :
  uuid (GattUuid_u16 a) = uuid (GattUuid_u16 b) <-> wrap 16 a = wrap 16 b.
Proof.
  split.
  - rewrite !GattUuid_u16_uuid. intros E.
    apply app_inv_head in E. apply app_inv_tail in E.
    apply (f_equal hex_value) in E. rewrite !hex_value_hex_fixed in E.
    pose proof (wrap_range 16 a ltac:(lia)) as Ra.
    pose proof (wrap_range 16 b ltac:(lia)) as Rb.
    change (16 ^ Z.of_nat 4) with (2 ^ 16) in E.
    now rewrite !Z.mod_small in E by assumption.
  - intros E. rewrite !GattUuid_u16_uuid. now rewrite E.
Qed.

(** X18. The 32-bit constructor stores the hex digits of its argument,
    between 4 and 8 of them, whose value is the argument, followed by the
    base suffix; so two 32-bit values give the same identifier exactly
    when they are equal. *)
Theorem GattUuid_u32_digits (a : Z) :
  (exists digits,
     uuid (GattUuid_u32 a) = digits ++ lit "-0000-1000-8000-00805f9b34fb" /\
     (4 <= List.length digits <= 8)%nat /\
     lower_hex_str digits /\
     hex_value digits = wrap 32 a) /\
  (forall b, uuid (GattUuid_u32 a) = uuid (GattUuid_u32 b)
             <-> wrap 32 a = wrap 32 b).
Proof.
  assert (D : forall x, exists digits,
     uuid (GattUuid_u32 x) = digits ++ lit "-0000-1000-8000-00805f9b34fb" /\
     (4 <= List.length digits <= 8)%nat /\
     lower_hex_str digits /\
     hex_value digits = wrap 32 x).
  { intros x. pose proof (wrap_range 32 x ltac:(lia)) as R.
    exists (Std.fmt_0x 4 (wrap 32 x)). repeat split.
    - rewrite GattUuid_u32_uuid. unfold Std.fmt_0x.
      now rewrite (wrap_small 32 (wrap 32 x)) by exact R.
    - unfold Std.fmt_0x. rewrite hex_fixed_length. lia.
    - unfold Std.fmt_0x. rewrite hex_fixed_length.
      rewrite (wrap_small 32 (wrap 32 x)) by exact R.
      pose proof (hex_len_le 8 (wrap 32 x) ltac:(lia) (proj2 R)). lia.
    - apply hex_fixed_lower.
    - rewrite hex_value_fmt_0x. now apply wrap_small. }
  split; [apply D |].
  intros b. split.
  - destruct (D a) as (da & Ua & _ & _ & Va).
    destruct (D b) as (db & Ub & _ & _ & Vb).
    rewrite Ua, Ub. intros E. apply app_inv_tail in E.
    rewrite <- Va, <- Vb. now rewrite E.
  - intros E. rewrite !GattUuid_u32_uuid. now rewrite E.
Qed.

(** * More on the five-field constructor *)

Lemma land_ones_range (x k : Z) : 0 <= k -> 0 <= Z.land x (Z.ones k) < 2 ^ k.
Proof.
  intros H. rewrite Z.land_ones by exact H.
  apply Z.mod_pos_bound. now apply Z.pow_pos_nonneg.
Qed.

(** The blocks of the canonical string, read back as hex numbers. *)
Lemma GattUuid_parts_read_back (part1 part2 part3 part4 part5 : Z) :
  let u := uuid (GattUuid_parts part1 part2 part3 part4 part5) in
  hex_value (firstn 8 u) = wrap 32 part1 /\
  hex_value (firstn 4 (skipn 9 u)) = wrap 16 part2 /\
  hex_value (firstn 4 (skipn 14 u)) = wrap 16 part3 /\
  hex_value (firstn 4 (skipn 19 u)) = wrap 16 part4 /\
  hex_value (firstn 8 (skipn 24 u)) =
    Z.land (Z.shiftr (wrap 64 part5) 4) (Z.ones 32) /\
  hex_value (skipn 32 u) = Z.land (wrap 64 part5) (Z.ones 16).
Proof.
  cbv zeta. rewrite GattUuid_parts_uuid.
  change 0xffffffff with (Z.ones 32). change 0xffff with (Z.ones 16).
  pose proof (wrap_range 32 part1 ltac:(lia)) as R1.
  pose proof (wrap_range 16 part2 ltac:(lia)) as R2.
  pose proof (wrap_range 16 part3 ltac:(lia)) as R3.
  pose proof (wrap_range 16 part4 ltac:(lia)) as R4.
  pose proof (land_ones_range (Z.shiftr (wrap 64 part5) 4) 32 ltac:(lia)) as Ra.
  pose proof (land_ones_range (wrap 64 part5) 16 ltac:(lia)) as Rb.
  pose proof (hex_value_hex_fixed 8 (wrap 32 part1)) as V1.
  pose proof (hex_value_hex_fixed 4 (wrap 16 part2)) as V2.
  pose proof (hex_value_hex_fixed 4 (wrap 16 part3)) as V3.
  pose proof (hex_value_hex_fixed 4 (wrap 16 part4)) as V4.
  pose proof (hex_value_hex_fixed 8 (Z.land (Z.shiftr (wrap 64 part5) 4) (Z.ones 32))) as Va.
  pose proof (hex_value_hex_fixed 4 (Z.land (wrap 64 part5) (Z.ones 16))) as Vb.
  change (16 ^ Z.of_nat 8) with (2 ^ 32) in *.
  change (16 ^ Z.of_nat 4) with (2 ^ 16) in *.
  rewrite Z.mod_small in V1, V2, V3, V4, Va, Vb by assumption.
  pose proof (hex_fixed_length 8 (wrap 32 part1)) as L1.
  pose proof (hex_fixed_length 4 (wrap 16 part2)) as L2.
  pose proof (hex_fixed_length 4 (wrap 16 part3)) as L3.
  pose proof (hex_fixed_length 4 (wrap 16 part4)) as L4.
  pose proof (hex_fixed_length 8 (Z.land (Z.shiftr (wrap 64 part5) 4) (Z.ones 32))) as La.
  pose proof (hex_fixed_length 4 (Z.land (wrap 64 part5) (Z.ones 16))) as Lb.
  revert V1 V2 V3 V4 Va Vb L1 L2 L3 L4 La Lb.
  generalize (Std.hex_fixed 8 (wrap 32 part1)) as b1.
  generalize (Std.hex_fixed 4 (wrap 16 part2)) as b2.
  generalize (Std.hex_fixed 4 (wrap 16 part3)) as b3.
  generalize (Std.hex_fixed 4 (wrap 16 part4)) as b4.
  generalize (Std.hex_fixed 8 (Z.land (Z.shiftr (wrap 64 part5) 4) (Z.ones 32))) as ba.
  generalize (Std.hex_fixed 4 (Z.land (wrap 64 part5) (Z.ones 16))) as bb.
  intros bb ba b4 b3 b2 b1 V1 V2 V3 V4 Va Vb L1 L2 L3 L4 La Lb.
  fixed_length b1 L1. fixed_length b2 L2. fixed_length b3 L3.
  fixed_length b4 L4. fixed_length ba La. fixed_length bb Lb.
  repeat split; assumption.
Qed.

(** X19. The five-field constructor renders its four leading fields and
    the low 16 bits of the fifth field faithfully: read back as hex, the
    blocks of the canonical string give [part1], [part2], [part3],
    [part4], and the last four digits give [part5 & 0xffff]; the eight
    digits before those give bits 4 to 35 of [part5]. *)
Theorem GattUuid_parts_blocks (part1 part2 part3 part4 part5 : Z) :
  let u := uuid (GattUuid_parts part1 part2 part3 part4 part5) in
  hex_value (firstn 8 u) = wrap 32 part1 /\
  hex_value (firstn 4 (skipn 9 u)) = wrap 16 part2 /\
  hex_value (firstn 4 (skipn 14 u)) = wrap 16 part3 /\
  hex_value (firstn 4 (skipn 19 u)) = wrap 16 part4 /\
  hex_value (firstn 8 (skipn 24 u)) =
    Z.land (Z.shiftr (wrap 64 part5) 4) (Z.ones 32) /\
  hex_value (skipn 32 u) = Z.land (wrap 64 part5) (Z.ones 16).
Proof. exact (GattUuid_parts_read_back part1 part2 part3 part4 part5). Qed.

(** X20. Two calls of the five-field constructor that give the same
    canonical string have the same four leading fields and agree on bits
    0 to 35 of the fifth field. *)
Theorem GattUuid_parts_distinguishes
    (p1 p2 p3 p4 p5 q1 q2 q3 q4 q5 : Z) :
  uuid (GattUuid_parts p1 p2 p3 p4 p5) = uuid (GattUuid_parts q1 q2 q3 q4 q5) ->
  wrap 32 p1 = wrap 32 q1 /\ wrap 16 p2 = wrap 16 q2 /\
  wrap 16 p3 = wrap 16 q3 /\ wrap 16 p4 = wrap 16 q4 /\
  Z.land p5 (Z.ones 36) = Z.land q5 (Z.ones 36).
Proof.
  intros E.
  pose proof (GattUuid_parts_read_back p1 p2 p3 p4 p5) as P.
  pose proof (GattUuid_parts_read_back q1 q2 q3 q4 q5) as Q.
  cbv zeta in P, Q. rewrite E in P.
  destruct P as (P1 & P2 & P3 & P4 & Pa & Pb).
  destruct Q as (Q1 & Q2 & Q3 & Q4 & Qa & Qb).
  repeat split; try congruence.
  assert (A : Z.land (Z.shiftr (wrap 64 p5) 4) (Z.ones 32) =
              Z.land (Z.shiftr (wrap 64 q5) 4) (Z.ones 32)) by congruence.
  assert (B : Z.land (wrap 64 p5) (Z.ones 16) = Z.land (wrap 64 q5) (Z.ones 16))
    by congruence.
  apply Z.bits_inj'. intros n Hn. rewrite !Z.land_spec.
  destruct (Z.lt_ge_cases n 36) as [Lt | Ge].
  - f_equal.
    destruct (Z.lt_ge_cases n 16) as [Lo | Hi].
    + pose proof (masked_bit 16 _ _ n B ltac:(lia)) as T.
      now rewrite !wrap_testbit in T by lia.
    + pose proof (masked_bit 32 _ _ (n - 4) A ltac:(lia)) as T.
      rewrite !Z.shiftr_spec in T by lia.
      replace (n - 4 + 4) with n in T by lia.
      now rewrite !wrap_testbit in T by lia.
  - rewrite Z.ones_spec_high by lia. now rewrite !andb_false_r.
Qed.

Lemma GattUuid_parts_distinguishes_witness :
  wrap 32 1 = wrap 32 1 /\ wrap 16 2 = wrap 16 2 /\
  wrap 16 3 = wrap 16 3 /\ wrap 16 4 = wrap 16 4 /\
  Z.land 0x123456789abc (Z.ones 36) = Z.land 0xfed456789abc (Z.ones 36).
Proof.
  apply (GattUuid_parts_distinguishes 1 2 3 4 0x123456789abc
                                      1 2 3 4 0xfed456789abc).
  reflexivity.
Defined.

(** * Invariants of constructed identifiers *)

(** X21. Whatever constructor built it, an identifier has the width 0,
    16, 32 or 128; its canonical string is empty exactly when the width is
    0, and has at least 32 characters otherwise. *)
Theorem constructed_invariant (g : GattUuid) :
  constructed g ->
  (getBitCount g = 0 \/ getBitCount g = 16 \/ getBitCount g = 32
   \/ getBitCount g = 128) /\
  (uuid g = [] <-> getBitCount g = 0) /\
  (uuid g = [] \/ (32 <= List.length (uuid g))%nat).
Proof.
  intros C. pose proof (constructed_length g C) as L.
  unfold getBitCount.
  assert (T : forall s g', GattUuid_string s = Ok g' ->
            (bitCount g' = 0 \/ bitCount g' = 16 \/ bitCount g' = 32
             \/ bitCount g' = 128) /\ (uuid g' = [] <-> bitCount g' = 0)).
  { intros s g' E.
    destruct (GattUuid_string_length s g' E) as [[B U] | [B Lg]].
    - rewrite B, U. tauto.
    - split; [tauto |]. split.
      + intros U. rewrite U in Lg. simpl in Lg. lia.
      + intros Z0. lia. }
  assert (N : forall g', (32 <= List.length (uuid g'))%nat -> uuid g' <> []).
  { intros g' Lg U. rewrite U in Lg. simpl in Lg. lia. }
  split; [| split; [| exact L]].
  - destruct C as [s g E | p g E | part | part | p1 p2 p3 p4 p5];
      try (apply (T _ _ E)); cbn [bitCount GattUuid_u16 GattUuid_u32 GattUuid_parts];
      auto.
  - destruct C as [s g E | p g E | part | part | p1 p2 p3 p4 p5];
      try (apply (T _ _ E));
      (destruct L as [U | Lg]; [| apply N in Lg]);
      (split; [intros U' | intros B]);
      try contradiction;
      try (rewrite GattUuid_u16_uuid in U; discriminate U);
      try (cbn [bitCount GattUuid_u16 GattUuid_u32 GattUuid_parts] in B; discriminate B).
    + rewrite GattUuid_u32_uuid in U.
      apply (f_equal (@List.length ascii)) in U.
      rewrite length_app in U. simpl in U. lia.
    + rewrite GattUuid_parts_uuid in U.
      apply (f_equal (@List.length ascii)) in U.
      rewrite !length_app in U. simpl in U. lia.
Qed.

Lemma constructed_invariant_witness :
  (getBitCount (GattUuid_u32 0x180A) = 0 \/ getBitCount (GattUuid_u32 0x180A) = 16
   \/ getBitCount (GattUuid_u32 0x180A) = 32
   \/ getBitCount (GattUuid_u32 0x180A) = 128) /\
  (uuid (GattUuid_u32 0x180A) = [] <-> getBitCount (GattUuid_u32 0x180A) = 0) /\
  (uuid (GattUuid_u32 0x180A) = []
   \/ (32 <= List.length (uuid (GattUuid_u32 0x180A)))%nat).
Proof. apply (constructed_invariant (GattUuid_u32 0x180A)). apply from_u32. Defined.

(** X22. For a text whose sanitized form has 32 hex digits, however it is
    punctuated, [toString] of the identifier constructed from it is in
    canonical form and holds those 32 digits. *)
Theorem toString_of_full_text (h : str) :
  List.length (clean h) = 32%nat ->
  exists d, (g <- GattUuid_string h ;; toString g) = Ok d /\
            well_formed d = true /\ clean d = clean h.
Proof.
  intros H. exists (dashify_spec h).
  pose proof (GattUuid_string_128 h H) as E.
  split; [| split].
  - rewrite E. reflexivity.
  - apply (GattUuid_string_well_formed h _) in E; [exact E | | cbn; auto].
    unfold Std.length. rewrite H. reflexivity.
  - apply clean_dashify_spec.
Qed.

Lemma toString_of_full_text_witness :
  exists d,
    (g <- GattUuid_string (lit "0000180A/0000.1000_zzzzzz_8000+00805f9b34fb") ;;
     toString g) = Ok d /\
    well_formed d = true /\
    clean d = clean (lit "0000180A/0000.1000_zzzzzz_8000+00805f9b34fb").
Proof.
  apply (toString_of_full_text (lit "0000180A/0000.1000_zzzzzz_8000+00805f9b34fb")).
  reflexivity.
Defined.
